(** * Mutation++ gas-surface interaction: the wall state

    A shallow embedding of [src/gsi/WallState.cpp] and the properties of
    its state container: the variable-set dispatch of [setWallState] and
    [getWallState], the assembly of number densities in
    [getNdStateGasSurf], and the site-density initialisation run by the
    constructor.

    The C++ [double] is kept abstract behind the class [Double]; the file
    instantiates it with IEEE binary64 (the arithmetic the program runs)
    and with the canonical rationals [Qc] (exact arithmetic).  Raw
    pointers are the caller's arrays, as lists; reading or writing past
    the end of an array is a [Fault], as is a failed [assert]. *)

From Stdlib Require Import ZArith QArith Qcanon Lia Floats Ascii String.
From stdpp Require Import base list strings.

Local Open Scope Z_scope.

(** ** Scalars *)

(** The operations on [double] that the translation unit uses:
    [operator*], [operator/], the implicit conversion from [int], and the
    constant [NA] (Avogadro's number), which Constants.h declares outside
    this translation unit and which stays a parameter of the arithmetic. *)
Class Double (R : Type) : Type := {
  dmul : R → R → R;
  ddiv : R → R → R;
  of_int : Z → R;
  NA : R
}.

Declare Scope double_scope.
Delimit Scope double_scope with D.
Infix "*" := dmul : double_scope.
Infix "/" := ddiv : double_scope.

(** ** Outcomes of a call *)

(** Modelled from the spec: [InvalidInputError] of Errors.h, which lies
    outside this translation unit.  An invalid-input error identifies the
    input and the offending value, and carries a message to which
    [operator<<] appends. *)
Record InvalidInputError : Type := {
  err_input : string;
  err_value : Z;
  err_message : string
}.

Definition mkInvalidInputError (input : string) (value : Z) : InvalidInputError :=
  {| err_input := input; err_value := value; err_message := "" |}.

Definition err_append (e : InvalidInputError) (s : string) : InvalidInputError :=
  {| err_input := err_input e; err_value := err_value e;
     err_message := err_message e +:+ s |}.

Infix "<<" := err_append (at level 61, left associativity).

(** The line feed of the C++ string literals. *)
Definition nl : string := String "010"%char EmptyString.

Inductive fault : Type :=
  | AssertionFailure
  | OutOfBounds.

Inductive outcome (A : Type) : Type :=
  | Ok (a : A)
  | Throw (e : InvalidInputError)
  | Fault (f : fault).

Arguments Ok {A} a.
Arguments Throw {A} e.
Arguments Fault {A} f.

(** A member function or a routine writing through a pointer: it runs on
    a state [X] (the object, or the caller's buffers) and leaves the state
    it had reached when it throws. *)
Definition St (X A : Type) : Type := X → outcome A * X.

Definition st_ret {X A} (a : A) : St X A := λ s, (Ok a, s).

Definition st_bind {X A B} (m : St X A) (k : A → St X B) : St X B :=
  λ s, match m s with
       | (Ok a, s') => k a s'
       | (Throw e, s') => (Throw e, s')
       | (Fault f, s') => (Fault f, s')
       end.

Definition st_throw {X A} (e : InvalidInputError) : St X A := λ s, (Throw e, s).
Definition st_fault {X A} (f : fault) : St X A := λ s, (Fault f, s).
Definition st_get {X} : St X X := λ s, (Ok s, s).
Definition st_gets {X A} (f : X → A) : St X A := λ s, (Ok (f s), s).
Definition st_modify {X} (f : X → X) : St X unit := λ s, (Ok (), f s).

Notation "x ←' m ; k" := (st_bind m (λ x, k))
  (at level 20, m at level 100, k at level 200, right associativity,
   format "x  ←'  m ;  '/' k").
Notation "m ;;' k" := (st_bind m (λ _, k))
  (at level 100, k at level 200, right associativity,
   format "m  ;;'  '/' k").

(** [assert(c)] of <cassert>, in a build that keeps assertions. *)
Definition assert {X} (c : bool) : St X unit :=
  if c then st_ret () else st_fault AssertionFailure.

(** [for (int i = i0; i < i0 + n; ++i) body(i)]. *)
Fixpoint for_loop {X} (i0 n : nat) (body : nat → St X unit) : St X unit :=
  match n with
  | O => st_ret ()
  | S n' => body i0 ;;' for_loop (S i0) n' body
  end.

(** Runs [m] on one component of a larger state. *)
Definition st_zoom {X T A} (get : X → T) (set : T → X → X) (m : St T A) : St X A :=
  λ s, let '(r, t) := m (get s) in (r, set t s).

(** ** Arrays *)

Section Arrays.
Context {R : Type} `{Double R}.

(** [v(i)] and [p[i]] as an rvalue. *)
Definition load {X} (v : list R) (i : nat) : St X R :=
  match v !! i with
  | Some x => st_ret x
  | None => st_fault OutOfBounds
  end.

(** [p[i] = x] and [v[i] = x]. *)
Definition store (i : nat) (x : R) : St (list R) unit :=
  λ v, if decide (i < length v)%nat then (Ok (), <[i:=x]> v)
       else (Fault OutOfBounds, v).

(** [Eigen::Map<const Eigen::VectorXd>(p, n)]: the [n] coefficients
    found at [p]. *)
Definition Eigen_Map {X} (p : list R) (n : nat) : St X (list R) :=
  if decide (n ≤ length p)%nat then st_ret (take n p) else st_fault OutOfBounds.

(** [Eigen::VectorXd v(n)]: Eigen allocates the [n] coefficients and
    leaves them as the memory had them; [junk] is that memory. *)
Definition VectorXd_sized (junk : nat → R) (n : nat) : list R :=
  map junk (seq 0 n).

(** A callee that fills the first [length c] slots behind a [double*]. *)
Definition write_head (c : list R) : St (list R) unit :=
  λ v, if decide (length c ≤ length v)%nat then (Ok (), c ++ drop (length c) v)
       else (Fault OutOfBounds, v).

(** Block operations of Eigen on a dense vector; a block that does not
    fit trips Eigen's range assertion.  [u.head(n)], read: *)
Definition head_block {X} (u : list R) (n : nat) : St X (list R) :=
  if decide (n ≤ length u)%nat then st_ret (take n u) else st_fault OutOfBounds.

(** [v.head(n) *= c]. *)
Definition head_scale (n : nat) (c : R) : St (list R) unit :=
  λ v, if decide (n ≤ length v)%nat
       then (Ok (), map (λ x, (x * c)%D) (take n v) ++ drop n v)
       else (Fault OutOfBounds, v).

(** [v.tail(n) = rhs]. *)
Definition tail_assign (n : nat) (rhs : list R) : St (list R) unit :=
  λ v, if decide (n ≤ length v ∧ length rhs = n)%nat
       then (Ok (), take (length v - n) v ++ rhs)
       else (Fault OutOfBounds, v).

End Arrays.

(** ** The wall state *)

Section WallState.
Context {R : Type} `{Double R}.

(** The part of Thermodynamics.h this unit calls.  The class lies
    outside this translation unit, so the provider is a parameter of the
    wall state; [convert_RHO_TO_CONC a] stands for the values that
    [convert<RHO_TO_CONC>(a, b)] leaves in [b]. *)
Record Thermodynamics : Type := {
  nSpecies : nat;
  nEnergyEqns : nat;
  convert_RHO_TO_CONC : list R → list R
}.

(** The part of SurfaceProperties.h this unit calls, a parameter of the
    wall state as well. *)
Record SurfaceProperties : Type := {
  nWallSpecies : nat;
  nSiteCategories : nat;
  nTotalSites : R;
  fracSite : nat → R;
  nSpeciesinSite : nat → Z
}.

(** The data members of [class WallState]. *)
Record WallState : Type := {
  m_thermo : Thermodynamics;
  m_surf_props : SurfaceProperties;
  m_ns : nat;
  m_nT : nat;
  m_ns_surf : nat;
  m_set_state_rhoi_T : Z;
  mv_rhoi : list R;
  mv_T : list R;
  m_p : R;
  m_is_wall_state_set : bool;
  mv_surf_props_state : list R
}.

Definition set_mv_rhoi (v : list R) (w : WallState) : WallState :=
  {| m_thermo := m_thermo w; m_surf_props := m_surf_props w;
     m_ns := m_ns w; m_nT := m_nT w; m_ns_surf := m_ns_surf w;
     m_set_state_rhoi_T := m_set_state_rhoi_T w;
     mv_rhoi := v; mv_T := mv_T w; m_p := m_p w;
     m_is_wall_state_set := m_is_wall_state_set w;
     mv_surf_props_state := mv_surf_props_state w |}.

Definition set_mv_T (v : list R) (w : WallState) : WallState :=
  {| m_thermo := m_thermo w; m_surf_props := m_surf_props w;
     m_ns := m_ns w; m_nT := m_nT w; m_ns_surf := m_ns_surf w;
     m_set_state_rhoi_T := m_set_state_rhoi_T w;
     mv_rhoi := mv_rhoi w; mv_T := v; m_p := m_p w;
     m_is_wall_state_set := m_is_wall_state_set w;
     mv_surf_props_state := mv_surf_props_state w |}.

Definition set_m_p (p : R) (w : WallState) : WallState :=
  {| m_thermo := m_thermo w; m_surf_props := m_surf_props w;
     m_ns := m_ns w; m_nT := m_nT w; m_ns_surf := m_ns_surf w;
     m_set_state_rhoi_T := m_set_state_rhoi_T w;
     mv_rhoi := mv_rhoi w; mv_T := mv_T w; m_p := p;
     m_is_wall_state_set := m_is_wall_state_set w;
     mv_surf_props_state := mv_surf_props_state w |}.

Definition set_m_is_wall_state_set (b : bool) (w : WallState) : WallState :=
  {| m_thermo := m_thermo w; m_surf_props := m_surf_props w;
     m_ns := m_ns w; m_nT := m_nT w; m_ns_surf := m_ns_surf w;
     m_set_state_rhoi_T := m_set_state_rhoi_T w;
     mv_rhoi := mv_rhoi w; mv_T := mv_T w; m_p := m_p w;
     m_is_wall_state_set := b;
     mv_surf_props_state := mv_surf_props_state w |}.

Definition set_mv_surf_props_state (v : list R) (w : WallState) : WallState :=
  {| m_thermo := m_thermo w; m_surf_props := m_surf_props w;
     m_ns := m_ns w; m_nT := m_nT w; m_ns_surf := m_ns_surf w;
     m_set_state_rhoi_T := m_set_state_rhoi_T w;
     mv_rhoi := mv_rhoi w; mv_T := mv_T w; m_p := m_p w;
     m_is_wall_state_set := m_is_wall_state_set w;
     mv_surf_props_state := v |}.

(** Modelled from the spec: the accessors [getWallRhoi] and [getWallT]
    of WallState.h, which lies outside this translation unit, give direct
    read access to the internal vectors. *)
Definition getWallRhoi (w : WallState) : list R := mv_rhoi w.
Definition getWallT (w : WallState) : list R := mv_T w.

(** *** Setters *)

Definition setWallRhoi (p_rhoi : list R) : St WallState unit :=
  v ←' (λ w, Eigen_Map p_rhoi (m_ns w) w);
  st_modify (set_mv_rhoi v).

Definition setWallT (p_T : list R) : St WallState unit :=
  v ←' (λ w, Eigen_Map p_T (m_nT w) w);
  st_modify (set_mv_T v).

Definition setWallP (p : R) : St WallState unit :=
  st_modify (set_m_p p).

Definition setWallState (p_mass p_energy : list R) (state_var : Z)
  : St WallState unit :=
  match state_var with
  | 0 =>
      p ←' load p_mass 0;
      setWallP p ;;'
      setWallT p_energy
  | 1 =>
      setWallRhoi p_mass ;;'
      setWallT p_energy
  | _ =>
      st_throw (mkInvalidInputError "variable set" state_var
        << "This variable-set is not implemented in setWallState"
        << ". Possible variable-sets are:" +:+ nl
        << "  0: (pressure, temperature)" +:+ nl
        << "  1: (species densities, temperature)" +:+ nl)
  end ;;'
  st_modify (set_m_is_wall_state_set true).

(** *** Getters *)

(** The arrays behind the two output pointers [p_rhoi] and [p_rhoie],
    taken to be disjoint, are the state. *)
Definition getWallState (w : WallState) (state_var : Z)
  : St (list R * list R) unit :=
  match state_var with
  | 1 =>
      for_loop 0 (m_ns w) (λ i_sp,
        x ←' load (getWallRhoi w) i_sp;
        st_zoom fst (λ b s, (b, s.2)) (store i_sp x)) ;;'
      for_loop 0 (m_nT w) (λ i_T,
        x ←' load (getWallT w) i_T;
        st_zoom snd (λ b s, (s.1, b)) (store i_T x))
  | _ =>
      st_throw (mkInvalidInputError "variable get" state_var
        << "This variable-get is not implemented in getWallState"
        << ". Possible variable-sets are:" +:+ nl
        << "  1: (species densities, temperature)" +:+ nl)
  end.

(** The vector [v_wall_state], passed by reference, is the state. *)
Definition getNdStateGasSurf (w : WallState) : St (list R) unit :=
  v_wall_state ←' st_get;
  assert (bool_decide (length v_wall_state = m_ns w + m_ns_surf w)%nat) ;;'
  write_head (convert_RHO_TO_CONC (m_thermo w) (mv_rhoi w)) ;;'
  head_scale (m_ns w) NA ;;'
  rhs ←' head_block (mv_surf_props_state w) (m_ns_surf w);
  tail_assign (m_ns_surf w) rhs.

(** *** Construction *)

(** The loops of [initializeSurfState] run on the vector they fill and
    on the local [pos_in_surf_props].  Body of the inner loop: *)
Definition fill_slot (n_sites_dens : R) : St (list R * nat) unit :=
  pos_in_surf_props ←' st_gets snd;
  st_zoom fst (λ v s, (v, s.2)) (store pos_in_surf_props n_sites_dens) ;;'
  st_modify (λ s, (s.1, S s.2)).

(** Body of the outer loop. *)
Definition fill_site (surf_props : SurfaceProperties) (n_total_sites : R)
    (i_sites : nat) : St (list R * nat) unit :=
  let n_frac_site := fracSite surf_props i_sites in
  let n_sp_in_site := nSpeciesinSite surf_props i_sites in
  let n_sites_dens := (n_total_sites * n_frac_site / of_int n_sp_in_site)%D in
  for_loop 0 (Z.to_nat n_sp_in_site) (λ i_sp_sites, fill_slot n_sites_dens).

Definition initializeSurfState : St WallState unit :=
  λ w,
    let n_sites := nSiteCategories (m_surf_props w) in
    let n_total_sites := nTotalSites (m_surf_props w) in
    let '(r, (v, _)) :=
      for_loop 0 n_sites (fill_site (m_surf_props w) n_total_sites)
        (mv_surf_props_state w, 0%nat) in
    (r, set_mv_surf_props_state v w).

(** What the freshly allocated members hold before anything is stored
    in them: neither [Eigen::VectorXd v(n)] nor the [double m_p], which
    the initialiser list leaves out, is given a value. *)
Record Uninitialized : Type := {
  junk_rhoi : nat → R;
  junk_T : nat → R;
  junk_p : R;
  junk_surf_props_state : nat → R
}.

Definition WallState_ctor (mem : Uninitialized)
    (thermo : Thermodynamics) (surf_props : SurfaceProperties)
  : outcome unit * WallState :=
  initializeSurfState
    {| m_thermo := thermo;
       m_surf_props := surf_props;
       m_ns := nSpecies thermo;
       m_nT := nEnergyEqns thermo;
       m_ns_surf := nWallSpecies surf_props;
       m_set_state_rhoi_T := 1;
       mv_rhoi := VectorXd_sized (junk_rhoi mem) (nSpecies thermo);
       mv_T := VectorXd_sized (junk_T mem) (nEnergyEqns thermo);
       m_p := junk_p mem;
       m_is_wall_state_set := false;
       mv_surf_props_state :=
         VectorXd_sized (junk_surf_props_state mem) (nWallSpecies surf_props) |}.

(** The sizes the class keeps: each vector has the length recorded for
    it at construction. *)
Definition sized (w : WallState) : Prop :=
  length (mv_rhoi w) = m_ns w
  ∧ length (mv_T w) = m_nT w
  ∧ length (mv_surf_props_state w) = m_ns_surf w.

(** *** Sequences of calls *)

(** The member functions a client can call on a wall state. *)
Inductive call : Type :=
  | call_setWallState (p_mass p_energy : list R) (state_var : Z)
  | call_getWallState (p_rhoi p_rhoie : list R) (state_var : Z)
  | call_getNdStateGasSurf (v_wall_state : list R).

(** The object once the call is over.  An exception leaves the object as
    the [throw] found it; after a fault there is nothing to say. *)
Definition after_call (w : WallState) (c : call) : option WallState :=
  match c with
  | call_setWallState p_mass p_energy state_var =>
      match setWallState p_mass p_energy state_var w with
      | (Fault _, _) => None
      | (_, w') => Some w'
      end
  | call_getWallState p_rhoi p_rhoie state_var =>
      match getWallState w state_var (p_rhoi, p_rhoie) with
      | (Fault _, _) => None
      | _ => Some w
      end
  | call_getNdStateGasSurf v_wall_state =>
      match getNdStateGasSurf w v_wall_state with
      | (Fault _, _) => None
      | _ => Some w
      end
  end.

Fixpoint after_calls (w : WallState) (cs : list call) : option WallState :=
  match cs with
  | [] => Some w
  | c :: cs' =>
      match after_call w c with
      | Some w' => after_calls w' cs'
      | None => None
      end
  end.

(** *** The exceptions *)

Definition unsupported_set (state_var : Z) : InvalidInputError :=
  {| err_input := "variable set";
     err_value := state_var;
     err_message :=
       "This variable-set is not implemented in setWallState"
       +:+ ". Possible variable-sets are:" +:+ nl
       +:+ "  0: (pressure, temperature)" +:+ nl
       +:+ "  1: (species densities, temperature)" +:+ nl |}.

Definition unsupported_get (state_var : Z) : InvalidInputError :=
  {| err_input := "variable get";
     err_value := state_var;
     err_message :=
       "This variable-get is not implemented in getWallState"
       +:+ ". Possible variable-sets are:" +:+ nl
       +:+ "  1: (species densities, temperature)" +:+ nl |}.

(** *** The site layout *)

(** What the site model prescribes, category by category: category [c]
    owns [site_slots c] consecutive slots, each holding [site_density c];
    its first slot comes after the slots of the categories before it. *)
Definition site_density (sp : SurfaceProperties) (c : nat) : R :=
  (nTotalSites sp * fracSite sp c / of_int (nSpeciesinSite sp c))%D.

Definition site_slots (sp : SurfaceProperties) (c : nat) : nat :=
  Z.to_nat (nSpeciesinSite sp c).

Definition site_layout_from (sp : SurfaceProperties) (i n : nat) : list R :=
  concat (map (λ c, replicate (site_slots sp c) (site_density sp c)) (seq i n)).

Definition site_layout (sp : SurfaceProperties) : list R :=
  site_layout_from sp 0 (nSiteCategories sp).

Definition slot_of (sp : SurfaceProperties) (c : nat) : nat :=
  sum_list (map (site_slots sp) (seq 0 c)).

Definition slots_needed (sp : SurfaceProperties) : nat :=
  slot_of sp (nSiteCategories sp).

End WallState.

Arguments Thermodynamics R : clear implicits.
Arguments SurfaceProperties R : clear implicits.
Arguments WallState R : clear implicits.
Arguments Uninitialized R : clear implicits.
Arguments call R : clear implicits.

(** [sub] occurs in [s]. *)
Definition mentions (s sub : string) : bool :=
  match String.index 0 sub s with
  | Some _ => true
  | None => false
  end.

(** ** Two arithmetics *)

(** [int] to [double], exact on the range of [int]. *)
Definition double_of_int (z : Z) : float :=
  match z with
  | Z0 => 0%float
  | Zpos _ => PrimFloat.of_uint63 (Uint63.of_Z z)
  | Zneg p => PrimFloat.opp (PrimFloat.of_uint63 (Uint63.of_Z (Zpos p)))
  end.

(** IEEE 754 binary64, the [double] of the program; [NA] is the
    binary64 nearest to 6.0221415e23. *)
#[export] Instance binary64 : Double float := {
  dmul := PrimFloat.mul;
  ddiv := PrimFloat.div;
  of_int := double_of_int;
  NA := 0x1.fe1860c116cp+78%float
}.

(** Exact rational arithmetic. *)
#[export] Instance rational : Double Qc := {
  dmul := Qcmult;
  ddiv := Qcdiv;
  of_int := λ z, Q2Qc (inject_Z z);
  NA := Q2Qc (inject_Z 602214150000000000000000)
}.

(** Sums of rationals and of doubles. *)
Definition Qc_sum (l : list Qc) : Qc := foldr Qcplus (Q2Qc 0) l.

Definition frac_total (sp : SurfaceProperties Qc) : Qc :=
  Qc_sum (map (fracSite sp) (seq 0 (nSiteCategories sp))).

Definition double_sum (l : list float) : float :=
  foldl PrimFloat.add 0%float l.

(** ** Concrete walls *)

(** Two gas species, one temperature; the conversion divides each
    density by a molar mass. *)
Definition ex_thermo : Thermodynamics float :=
  {| nSpecies := 2; nEnergyEqns := 1;
     convert_RHO_TO_CONC := λ a, zip_with PrimFloat.div a [0.5; 0.25]%float |}.

(** Two site categories sharing 12 sites evenly, with two and one
    species: three wall species. *)
Definition ex_surf : SurfaceProperties float :=
  {| nWallSpecies := 3; nSiteCategories := 2; nTotalSites := 12%float;
     fracSite := λ _, 0.5%float;
     nSpeciesinSite := λ c, match c with O => 2 | _ => 1 end |}.

(** The same site model over the rationals. *)
Definition ex_thermo_Q : Thermodynamics Qc :=
  {| nSpecies := 2; nEnergyEqns := 1; convert_RHO_TO_CONC := λ a, a |}.


(** One category of two species announced as a single wall species. *)
Definition overrun_surf : SurfaceProperties float :=
  {| nWallSpecies := 1; nSiteCategories := 1; nTotalSites := 9%float;
     fracSite := λ _, 1%float; nSpeciesinSite := λ _, 2 |}.

(** One category of ten species: ten slots of one tenth each. *)
Definition tenth_surf : SurfaceProperties float :=
  {| nWallSpecies := 10; nSiteCategories := 1; nTotalSites := 1%float;
     fracSite := λ _, 1%float; nSpeciesinSite := λ _, 10 |}.



(** Memory that held sevens before the allocation. *)
Definition ex_mem : Uninitialized float :=
  {| junk_rhoi := λ _, 7%float; junk_T := λ _, 7%float; junk_p := 7%float;
     junk_surf_props_state := λ _, 7%float |}.

Definition ex_mem_Q : Uninitialized Qc :=
  {| junk_rhoi := λ _, Q2Qc 7; junk_T := λ _, Q2Qc 7; junk_p := Q2Qc 7;
     junk_surf_props_state := λ _, Q2Qc 7 |}.

(** The wall as constructed, then set through variable-set 1, then
    through variable-set 0. *)
Definition ex_wall : WallState float := (WallState_ctor ex_mem ex_thermo ex_surf).2.

Definition ex_wall_rhoi : WallState float :=
  (setWallState [1; 2]%float [300]%float 1 ex_wall).2.

Definition ex_wall_p : WallState float :=
  (setWallState [101325]%float [250]%float 0 ex_wall_rhoi).2.

(** A first category without species, a second with two, and three wall
    species: the last slot belongs to no category. *)
Definition sparse_surf : SurfaceProperties float :=
  {| nWallSpecies := 3; nSiteCategories := 2; nTotalSites := 12%float;
     fracSite := λ _, 0.5%float;
     nSpeciesinSite := λ c, match c with O => 0 | _ => 2 end |}.

(** Two categories, neither with a species. *)
Definition vacant_surf : SurfaceProperties float :=
  {| nWallSpecies := 2; nSiteCategories := 2; nTotalSites := 12%float;
     fracSite := λ _, 0.5%float; nSpeciesinSite := λ _, 0 |}.

(** Fractions one half and one quarter: they do not add up to one. *)
Definition partial_surf_Q : SurfaceProperties Qc :=
  {| nWallSpecies := 4; nSiteCategories := 2; nTotalSites := Q2Qc 12;
     fracSite := λ c, match c with O => Q2Qc (1 # 2) | _ => Q2Qc (1 # 4) end;
     nSpeciesinSite := λ c, match c with O => 2 | _ => 1 end |}.

(** ** Basic facts about the combinators *)

Section Combinators.
Context {R : Type}.

Lemma for_loop_S {X} (i0 n : nat) (body : nat → St X unit) (s : X) :
  for_loop i0 (S n) body s =
    match body i0 s with
    | (Ok _, s') => for_loop (S i0) n body s'
    | (Throw e, s') => (Throw e, s')
    | (Fault f, s') => (Fault f, s')
    end.
Proof. reflexivity. Qed.

(** The copying loop [for (i = i0; i < i0 + n; ++i) p[i] = src(i)],
    run on the component [get] of the state. *)
Lemma copy_loop (X : Type) (get : X → list R) (set : list R → X → X)
    (Hgs : ∀ b s, get (set b s) = b)
    (Hsg : ∀ s, set (get s) s = s)
    (Hss : ∀ b b' s, set b (set b' s) = set b s)
    (src : list R) (n i0 : nat) (s : X) :
  (i0 + n ≤ length src)%nat →
  (i0 + n ≤ length (get s))%nat →
  for_loop i0 n
    (λ i, x ←' load src i; st_zoom get set (store i x)) s
  = (Ok (), set (take i0 (get s) ++ take n (drop i0 src)
                   ++ drop (i0 + n) (get s)) s).
Proof.
  revert i0 s. induction n as [|n IH]; intros i0 s Hsrc Hdst.
  - rewrite Nat.add_0_r, take_0, app_nil_l, take_drop, Hsg. reflexivity.
  - destruct (lookup_lt_is_Some_2 src i0) as [x Hx]; [lia|].
    rewrite for_loop_S.
    unfold st_bind at 1, load, st_zoom, store. rewrite Hx. cbn.
    rewrite decide_True by lia.
    rewrite IH; rewrite ?Hgs, ?length_insert; try lia.
    rewrite Hss. f_equal. f_equal.
    rewrite (take_S_r _ _ x) by (apply list_lookup_insert_eq; lia).
    rewrite take_insert_ge by lia.
    rewrite drop_insert_lt by lia.
    rewrite (drop_S src x i0 Hx). rewrite firstn_cons.
    rewrite <- app_assoc.
    replace (S i0 + n)%nat with (i0 + S n)%nat by lia. reflexivity.
Qed.

End Combinators.

(** ** The site layout and the loops that produce it *)

Section SiteLayout.
Context {R : Type} `{Double R}.
Variable sp : SurfaceProperties R.

Lemma site_layout_from_S (i n : nat) :
  site_layout_from sp i (S n) =
    replicate (site_slots sp i) (site_density sp i) ++ site_layout_from sp (S i) n.
Proof. reflexivity. Qed.

Lemma site_layout_from_app (i n m : nat) :
  site_layout_from sp i (n + m) =
    site_layout_from sp i n ++ site_layout_from sp (i + n) m.
Proof.
  unfold site_layout_from. rewrite seq_app, map_app, concat_app. reflexivity.
Qed.

Lemma length_site_layout_from (i n : nat) :
  length (site_layout_from sp i n) = sum_list (map (site_slots sp) (seq i n)).
Proof.
  revert i. induction n as [|n IH]; intros i; [reflexivity|].
  rewrite site_layout_from_S, length_app, length_replicate, IH. reflexivity.
Qed.

Lemma length_site_layout : length (site_layout sp) = slots_needed sp.
Proof. apply length_site_layout_from. Qed.

Lemma site_layout_lookup (c j : nat) :
  (c < nSiteCategories sp)%nat → (j < site_slots sp c)%nat →
  site_layout sp !! (slot_of sp c + j)%nat = Some (site_density sp c).
Proof.
  intros Hc Hj. unfold site_layout.
  replace (nSiteCategories sp) with (c + S (nSiteCategories sp - S c))%nat by lia.
  rewrite site_layout_from_app, site_layout_from_S. cbn [Nat.add].
  rewrite lookup_app_r; rewrite length_site_layout_from; [|unfold slot_of; lia].
  replace (slot_of sp c + j - sum_list (map (site_slots sp) (seq 0 c)))%nat with j
    by (unfold slot_of; lia).
  rewrite lookup_app_l by (rewrite length_replicate; lia).
  apply lookup_replicate_2, Hj.
Qed.

Lemma fill_loop (d : R) (n j pos : nat) (v : list R) :
  (pos + n ≤ length v)%nat →
  for_loop j n (λ _, fill_slot d) (v, pos)
  = (Ok (), (take pos v ++ replicate n d ++ drop (pos + n) v, (pos + n)%nat)).
Proof.
  revert j pos v. induction n as [|n IH]; intros j pos v Hfit.
  - cbn. rewrite Nat.add_0_r, take_drop. reflexivity.
  - rewrite for_loop_S. unfold fill_slot at 1.
    unfold st_bind, st_gets, st_zoom, store, st_modify. cbn.
    rewrite decide_True by lia. cbn.
    rewrite IH by (rewrite length_insert; lia).
    assert (Hpos : <[pos:=d]> v !! pos = Some d)
      by (apply list_lookup_insert_eq; lia).
    rewrite (take_S_r _ _ d Hpos), take_insert_ge by lia.
    rewrite drop_insert_lt by lia.
    rewrite <- app_assoc. cbn.
    replace (S (pos + n)) with (pos + S n)%nat by lia. reflexivity.
Qed.

(** The first slot that does not exist stops the inner loop. *)
Lemma fill_loop_overrun (d : R) (n j pos : nat) (v : list R) :
  (length v < pos + n)%nat → (pos ≤ length v)%nat →
  (for_loop j n (λ _, fill_slot d) (v, pos)).1 = Fault OutOfBounds.
Proof.
  revert j pos v. induction n as [|n IH]; intros j pos v Hover Hpos; [lia|].
  rewrite for_loop_S. unfold fill_slot at 1.
  unfold st_bind, st_gets, st_zoom, store, st_modify. cbn.
  destruct (decide (pos < length v)%nat) as [Hlt|Hge]; cbn; [|reflexivity].
  apply IH; rewrite length_insert; lia.
Qed.

Lemma fill_sites (n i pos : nat) (v : list R) :
  (pos + length (site_layout_from sp i n) ≤ length v)%nat →
  for_loop i n (fill_site sp (nTotalSites sp)) (v, pos)
  = (Ok (), (take pos v ++ site_layout_from sp i n
               ++ drop (pos + length (site_layout_from sp i n)) v,
             (pos + length (site_layout_from sp i n))%nat)).
Proof.
  revert i pos v. induction n as [|n IH]; intros i pos v Hfit.
  - cbn. rewrite Nat.add_0_r, take_drop. reflexivity.
  - rewrite site_layout_from_S, length_app, length_replicate in *.
    rewrite for_loop_S. unfold fill_site at 1.
    fold (site_slots sp i). fold (site_density sp i).
    rewrite fill_loop by lia.
    set (v' := take pos v ++ _ ++ _).
    assert (Hlen : length v' = length v).
    { subst v'. rewrite !length_app, length_take, length_replicate, length_drop. lia. }
    rewrite IH by lia.
    f_equal. f_equal; [|lia].
    subst v'.
    rewrite take_app_add' by (rewrite length_take; lia).
    rewrite take_app_length' by (rewrite length_replicate; lia).
    rewrite <- !app_assoc. do 3 f_equal.
    rewrite drop_app_ge by (rewrite length_take; lia).
    rewrite drop_app_ge by (rewrite length_take, length_replicate; lia).
    rewrite drop_drop. f_equal.
    rewrite length_take, length_replicate. lia.
Qed.

(** When the categories need more slots than the vector has, the loops
    run off its end. *)
Lemma fill_sites_overrun (n i pos : nat) (v : list R) :
  (length v < pos + length (site_layout_from sp i n))%nat →
  (pos ≤ length v)%nat →
  (for_loop i n (fill_site sp (nTotalSites sp)) (v, pos)).1 = Fault OutOfBounds.
Proof.
  revert i pos v. induction n as [|n IH]; intros i pos v Hover Hpos.
  - cbn in Hover. lia.
  - rewrite site_layout_from_S, length_app, length_replicate in Hover.
    rewrite for_loop_S. unfold fill_site at 1.
    fold (site_slots sp i). fold (site_density sp i).
    destruct (decide (pos + site_slots sp i ≤ length v)%nat) as [Hfit|Hnofit].
    + rewrite fill_loop by lia.
      apply IH;
        rewrite !length_app, length_take, length_replicate, length_drop; lia.
    + pose proof (fill_loop_overrun (site_density sp i) (site_slots sp i) 0 pos v
                    ltac:(lia) Hpos) as Hf.
      destruct (for_loop 0 (site_slots sp i) _ (v, pos)) as [[a|e|f] s'];
        cbn in Hf |- *; try discriminate. exact Hf.
Qed.

End SiteLayout.

(** ** The member functions in closed form *)

Section Properties.
Context {R : Type} `{Double R}.
Implicit Types (w : WallState R) (v : list R).

(** [initializeSurfState] when the vector has room for every slot. *)
Lemma initializeSurfState_fits w :
  (slots_needed (m_surf_props w) ≤ length (mv_surf_props_state w))%nat →
  initializeSurfState w
  = (Ok (), set_mv_surf_props_state
              (site_layout (m_surf_props w)
                 ++ drop (slots_needed (m_surf_props w)) (mv_surf_props_state w))
              w).
Proof.
  intros Hfit. unfold initializeSurfState.
  rewrite fill_sites; fold (site_layout (m_surf_props w));
    rewrite length_site_layout; [|lia].
  reflexivity.
Qed.

(** And when it has not. *)
Lemma initializeSurfState_overrun w :
  (length (mv_surf_props_state w) < slots_needed (m_surf_props w))%nat →
  (initializeSurfState w).1 = Fault OutOfBounds.
Proof.
  intros Hover. unfold initializeSurfState.
  pose proof (fill_sites_overrun (m_surf_props w)
                (nSiteCategories (m_surf_props w)) 0 0 (mv_surf_props_state w)) as Hf.
  fold (site_layout (m_surf_props w)) in Hf.
  rewrite length_site_layout in Hf.
  destruct (for_loop 0 _ _ _) as [r [v pos]]. cbn in Hf |- *.
  apply Hf; lia.
Qed.

(** The constructor, when the site model fits the wall species. *)
Lemma WallState_ctor_fits (mem : Uninitialized R) (thermo : Thermodynamics R)
    (surf_props : SurfaceProperties R) :
  (slots_needed surf_props ≤ nWallSpecies surf_props)%nat →
  WallState_ctor mem thermo surf_props
  = (Ok (),
     {| m_thermo := thermo;
        m_surf_props := surf_props;
        m_ns := nSpecies thermo;
        m_nT := nEnergyEqns thermo;
        m_ns_surf := nWallSpecies surf_props;
        m_set_state_rhoi_T := 1;
        mv_rhoi := VectorXd_sized (junk_rhoi mem) (nSpecies thermo);
        mv_T := VectorXd_sized (junk_T mem) (nEnergyEqns thermo);
        m_p := junk_p mem;
        m_is_wall_state_set := false;
        mv_surf_props_state :=
          site_layout surf_props
            ++ drop (slots_needed surf_props)
                 (VectorXd_sized (junk_surf_props_state mem)
                    (nWallSpecies surf_props)) |}).
Proof.
  intros Hfit. unfold WallState_ctor.
  rewrite initializeSurfState_fits; [reflexivity|].
  cbn. unfold VectorXd_sized. rewrite length_map, length_seq. exact Hfit.
Qed.

Lemma length_VectorXd_sized (junk : nat → R) (n : nat) :
  length (VectorXd_sized junk n) = n.
Proof. unfold VectorXd_sized. rewrite length_map, length_seq. reflexivity. Qed.

(** The setters, on buffers that hold what they read. *)
Lemma setWallState_0 w (p : R) (rest p_energy : list R) :
  (m_nT w ≤ length p_energy)%nat →
  setWallState (p :: rest) p_energy 0 w
  = (Ok (), set_m_is_wall_state_set true
              (set_mv_T (take (m_nT w) p_energy) (set_m_p p w))).
Proof.
  intros HT. unfold setWallState, setWallP, setWallT, st_bind, st_modify, Eigen_Map.
  cbn. rewrite decide_True by exact HT. reflexivity.
Qed.

Lemma setWallState_1 w (p_mass p_energy : list R) :
  (m_ns w ≤ length p_mass)%nat →
  (m_nT w ≤ length p_energy)%nat →
  setWallState p_mass p_energy 1 w
  = (Ok (), set_m_is_wall_state_set true
              (set_mv_T (take (m_nT w) p_energy)
                 (set_mv_rhoi (take (m_ns w) p_mass) w))).
Proof.
  intros Hs HT. unfold setWallState, setWallRhoi, setWallT, st_bind, st_modify, Eigen_Map.
  cbn. rewrite decide_True by exact Hs. cbn.
  rewrite decide_True by exact HT. reflexivity.
Qed.

Lemma setWallState_other w (p_mass p_energy : list R) (state_var : Z) :
  state_var ≠ 0 → state_var ≠ 1 →
  setWallState p_mass p_energy state_var w = (Throw (unsupported_set state_var), w).
Proof.
  intros H0 H1. unfold setWallState.
  destruct state_var as [|[p|p|]|p]; try congruence; reflexivity.
Qed.

Ltac run_setWallState state_var p_mass :=
  unfold setWallState, setWallRhoi, setWallP, setWallT, st_bind, st_modify,
    Eigen_Map, load, st_throw, st_fault, st_ret;
  destruct state_var as [|[?|?|]|?]; cbn;
  try destruct (p_mass !! 0%nat); cbn;
  repeat (destruct (decide _); cbn).

(** No path of [setWallState] stores into the site densities or into
    the members fixed by the constructor. *)
Lemma setWallState_frame w (p_mass p_energy : list R) (state_var : Z) :
  let w' := (setWallState p_mass p_energy state_var w).2 in
  mv_surf_props_state w' = mv_surf_props_state w
  ∧ m_ns w' = m_ns w ∧ m_nT w' = m_nT w ∧ m_ns_surf w' = m_ns_surf w
  ∧ m_thermo w' = m_thermo w ∧ m_surf_props w' = m_surf_props w.
Proof. run_setWallState state_var p_mass; repeat split; reflexivity. Qed.

(** A call that returns has set the flag; a call that throws has left
    the object alone. *)
Lemma setWallState_outcome w (p_mass p_energy : list R) (state_var : Z) :
  match setWallState p_mass p_energy state_var w with
  | (Ok _, w') => m_is_wall_state_set w' = true
  | (Throw _, w') => w' = w
  | (Fault _, _) => True
  end.
Proof. run_setWallState state_var p_mass; reflexivity || exact I. Qed.

(** [getNdStateGasSurf] on a vector of the asserted size. *)
Lemma getNdStateGasSurf_run w v :
  length (mv_surf_props_state w) = m_ns_surf w →
  length v = (m_ns w + m_ns_surf w)%nat →
  length (convert_RHO_TO_CONC (m_thermo w) (mv_rhoi w)) = m_ns w →
  getNdStateGasSurf w v
  = (Ok (), map (λ x, (x * NA)%D) (convert_RHO_TO_CONC (m_thermo w) (mv_rhoi w))
              ++ mv_surf_props_state w).
Proof.
  intros Hsurf Hv Hconv.
  unfold getNdStateGasSurf, st_bind, st_get, assert, write_head,
    head_scale, head_block, tail_assign.
  rewrite bool_decide_eq_true_2 by exact Hv. cbn.
  set (c := convert_RHO_TO_CONC (m_thermo w) (mv_rhoi w)) in *.
  rewrite Hconv. rewrite !decide_True by lia. cbn.
  rewrite decide_True by (rewrite length_app, length_drop; lia).
  rewrite take_app_length', drop_app_length' by lia.
  rewrite decide_True by lia. cbn.
  rewrite (take_ge (mv_surf_props_state w)) by lia.
  rewrite decide_True
    by (rewrite length_app, length_map, length_drop; lia).
  f_equal. f_equal.
  rewrite length_app, length_map, length_drop.
  apply take_app_length'. rewrite length_map. lia.
Qed.

(** [getWallState] with id 1 on buffers that hold what it writes. *)
Lemma getWallState_1 w (p_rhoi p_rhoie : list R) :
  length (mv_rhoi w) = m_ns w → length (mv_T w) = m_nT w →
  (m_ns w ≤ length p_rhoi)%nat → (m_nT w ≤ length p_rhoie)%nat →
  getWallState w 1 (p_rhoi, p_rhoie)
  = (Ok (), (mv_rhoi w ++ drop (m_ns w) p_rhoi,
             mv_T w ++ drop (m_nT w) p_rhoie)).
Proof.
  intros Hr HT H1 H2. unfold getWallState, getWallRhoi, getWallT.
  unfold st_bind at 1.
  rewrite (copy_loop _ fst (λ b s, (b, s.2)) (λ _ _, eq_refl)
             (λ '(_, _), eq_refl) (λ _ _ _, eq_refl))
    by (cbn; lia).
  rewrite (copy_loop _ snd (λ b s, (s.1, b)) (λ _ _, eq_refl)
             (λ '(_, _), eq_refl) (λ _ _ _, eq_refl))
    by (cbn; lia).
  cbn [fst snd]. rewrite !take_0, !drop_0. cbn [app Nat.add].
  rewrite !take_ge by lia. reflexivity.
Qed.

Lemma getWallState_other w (bufs : list R * list R) (state_var : Z) :
  state_var ≠ 1 →
  getWallState w state_var bufs = (Throw (unsupported_get state_var), bufs).
Proof.
  intros H1. unfold getWallState.
  destruct state_var as [|[p|p|]|p]; try congruence; reflexivity.
Qed.

(** The sizes hold from construction on. *)
Lemma WallState_ctor_sized (mem : Uninitialized R) (thermo : Thermodynamics R)
    (surf_props : SurfaceProperties R) :
  (slots_needed surf_props ≤ nWallSpecies surf_props)%nat →
  sized (WallState_ctor mem thermo surf_props).2.
Proof.
  intros Hfit. rewrite WallState_ctor_fits by exact Hfit.
  unfold sized. cbn. rewrite !length_VectorXd_sized.
  repeat split.
  rewrite length_app, length_drop, length_site_layout, length_VectorXd_sized. lia.
Qed.

Lemma setWallState_sized w (p_mass p_energy : list R) (state_var : Z) :
  sized w →
  match setWallState p_mass p_energy state_var w with
  | (Fault _, _) => True
  | (_, w') => sized w'
  end.
Proof.
  intros (Hr & HT & Hs). unfold sized.
  run_setWallState state_var p_mass; try exact I;
    rewrite ?length_take; repeat split; lia.
Qed.

Lemma after_call_sized w w' (c : call R) :
  sized w → after_call w c = Some w' → sized w'.
Proof.
  intros Hw Hc. destruct c as [p_mass p_energy state_var| |]; unfold after_call in Hc.
  - pose proof (setWallState_sized w p_mass p_energy state_var Hw) as Ho.
    destruct (setWallState p_mass p_energy state_var w) as [[[]|e|f] w''];
      simplify_eq; exact Ho.
  - destruct (getWallState _ _ _) as [[[]|e|f] b]; simplify_eq; exact Hw.
  - destruct (getNdStateGasSurf _ _) as [[[]|e|f] b]; simplify_eq; exact Hw.
Qed.

Lemma after_calls_sized (cs : list (call R)) w w' :
  sized w → after_calls w cs = Some w' → sized w'.
Proof.
  revert w. induction cs as [|c cs IH]; intros w Hw Hrun; cbn in Hrun.
  - congruence.
  - destruct (after_call w c) as [w1|] eqn:Hc; [|discriminate].
    eapply IH; [|exact Hrun]. eapply after_call_sized; eauto.
Qed.

(** Once set, the flag survives every call. *)
Lemma after_call_keeps_flag w w' (c : call R) :
  m_is_wall_state_set w = true → after_call w c = Some w' →
  m_is_wall_state_set w' = true.
Proof.
  intros Hset Hc. destruct c as [p_mass p_energy state_var| |]; unfold after_call in Hc.
  - pose proof (setWallState_outcome w p_mass p_energy state_var) as Ho.
    destruct (setWallState p_mass p_energy state_var w) as [[[]|e|f] w''];
      simplify_eq; congruence.
  - destruct (getWallState _ _ _) as [[[]|e|f] b]; simplify_eq; exact Hset.
  - destruct (getNdStateGasSurf _ _) as [[[]|e|f] b]; simplify_eq; exact Hset.
Qed.

Lemma after_calls_keep_flag (cs : list (call R)) w w' :
  m_is_wall_state_set w = true → after_calls w cs = Some w' →
  m_is_wall_state_set w' = true.
Proof.
  revert w. induction cs as [|c cs IH]; intros w Hset Hrun; cbn in Hrun.
  - congruence.
  - destruct (after_call w c) as [w1|] eqn:Hc; [|discriminate].
    eapply IH; [|exact Hrun]. eapply after_call_keeps_flag; eauto.
Qed.

End Properties.

(** ** The specification, claim by claim *)

Section Claims.
Context {R : Type} `{Double R}.
Implicit Types (w : WallState R) (v : list R).

(** C1.  On a wall state whose species densities have length [ns] and
    whose site densities have length [nsSurf], [getNdStateGasSurf] called
    with a vector of length exactly [ns + nsSurf] returns, and the vector
    then holds in its first [ns] slots the provider's concentrations of
    the species densities, each scaled by Avogadro's number, and in its
    trailing [nsSurf] slots the site densities, unchanged.  The provider's
    conversion is taken to return one value per density. *)
Theorem getNdStateGasSurf_spec w v :
  length (mv_rhoi w) = m_ns w →
  length (mv_surf_props_state w) = m_ns_surf w →
  length v = (m_ns w + m_ns_surf w)%nat →
  length (convert_RHO_TO_CONC (m_thermo w) (mv_rhoi w)) = length (mv_rhoi w) →
  ∃ v', getNdStateGasSurf w v = (Ok (), v')
        ∧ length v' = (m_ns w + m_ns_surf w)%nat
        ∧ take (m_ns w) v'
          = map (λ x, (x * NA)%D) (convert_RHO_TO_CONC (m_thermo w) (mv_rhoi w))
        ∧ drop (m_ns w) v' = mv_surf_props_state w.
Proof.
  intros Hrhoi Hsurf Hv Hconv.
  eexists. split; [apply getNdStateGasSurf_run; congruence|].
  split; [rewrite length_app, length_map; lia|].
  split.
  - apply take_app_length'. rewrite length_map. congruence.
  - apply drop_app_length'. rewrite length_map. congruence.
Qed.

(** C2.  For densities of length [ns] and temperatures of length [nT],
    [setWallState(densities, temperatures, 1)] returns, and [getWallState]
    with id 1 then writes exactly these [ns] densities and [nT]
    temperatures, index for index, at the head of the two output buffers
    (which must hold that many values) and leaves the rest of the buffers
    as it was. *)
Theorem setWallState_getWallState_roundtrip w
    (densities temperatures p_rhoi p_rhoie : list R) :
  length densities = m_ns w →
  length temperatures = m_nT w →
  (m_ns w ≤ length p_rhoi)%nat →
  (m_nT w ≤ length p_rhoie)%nat →
  ∃ w', setWallState densities temperatures 1 w = (Ok (), w')
        ∧ getWallState w' 1 (p_rhoi, p_rhoie)
          = (Ok (), (densities ++ drop (m_ns w) p_rhoi,
                     temperatures ++ drop (m_nT w) p_rhoie)).
Proof.
  intros Hd Ht Hb1 Hb2. eexists. split.
  - apply setWallState_1; lia.
  - rewrite !take_ge by lia.
    rewrite getWallState_1; cbn; try lia; reflexivity.
Qed.

(** C5.  For every id other than 0 and 1, [setWallState] throws the
    invalid-input error for "variable set", which carries the offending id
    and a message listing the ids 0 and 1, and the object is left exactly
    as it was. *)
Theorem setWallState_unsupported w (p_mass p_energy : list R) (state_var : Z) :
  state_var ≠ 0 → state_var ≠ 1 →
  setWallState p_mass p_energy state_var w = (Throw (unsupported_set state_var), w)
  ∧ err_value (unsupported_set state_var) = state_var
  ∧ mentions (err_message (unsupported_set state_var))
      "0: (pressure, temperature)" = true
  ∧ mentions (err_message (unsupported_set state_var))
      "1: (species densities, temperature)" = true.
Proof.
  intros H0 H1. split; [apply setWallState_other; assumption|].
  repeat split; reflexivity.
Qed.

(** C6.  For every id other than 1, [getWallState] throws the
    invalid-input error for "variable get", which carries the offending id
    and a message listing the id 1, and neither output buffer is written. *)
Theorem getWallState_unsupported w (p_rhoi p_rhoie : list R) (state_var : Z) :
  state_var ≠ 1 →
  getWallState w state_var (p_rhoi, p_rhoie)
  = (Throw (unsupported_get state_var), (p_rhoi, p_rhoie))
  ∧ err_value (unsupported_get state_var) = state_var
  ∧ mentions (err_message (unsupported_get state_var))
      "1: (species densities, temperature)" = true.
Proof.
  intros H1. split; [apply getWallState_other; assumption|].
  split; reflexivity.
Qed.

(** C9.  With a supported id, an energy array of [nT] values and a mass
    array of the length the id asks for (one value for id 0, [ns] values
    for id 1), [setWallState] returns and the temperatures are the energy
    array; with id 0 the pressure is the single mass value and the species
    densities are unchanged; with id 1 the species densities are the mass
    array and the pressure is unchanged.  The site densities are unchanged
    by every call of [setWallState], whatever its arguments and outcome. *)
Theorem setWallState_effect w (p_mass p_energy : list R) (state_var : Z) :
  state_var = 0 ∨ state_var = 1 →
  length p_energy = m_nT w →
  length p_mass = (if decide (state_var = 0) then 1%nat else m_ns w) →
  (∃ w', setWallState p_mass p_energy state_var w = (Ok (), w')
         ∧ mv_T w' = p_energy
         ∧ (state_var = 0 → p_mass = [m_p w'] ∧ mv_rhoi w' = mv_rhoi w)
         ∧ (state_var = 1 → mv_rhoi w' = p_mass ∧ m_p w' = m_p w))
  ∧ (∀ (p_mass' p_energy' : list R) (state_var' : Z),
       mv_surf_props_state (setWallState p_mass' p_energy' state_var' w).2
       = mv_surf_props_state w).
Proof.
  intros Hid Ht Hm. split; [|intros; apply setWallState_frame].
  destruct Hid as [-> | ->].
  - rewrite decide_True in Hm by reflexivity.
    destruct p_mass as [|p [|? ?]]; try discriminate. clear Hm.
    eexists. split; [apply setWallState_0; lia|].
    cbn. rewrite take_ge by lia.
    repeat split; intros; try reflexivity; discriminate.
  - rewrite decide_False in Hm by discriminate.
    eexists. split; [apply setWallState_1; lia|].
    cbn. rewrite !take_ge by lia.
    repeat split; intros; try reflexivity; discriminate.
Qed.

(** C10.  The result of [getNdStateGasSurf] is the same on two wall
    states that share the thermodynamics provider and agree on the species
    densities and on the site densities (each of the length its object
    records), whatever their pressures, temperatures and flags. *)
Theorem getNdStateGasSurf_ignores_pressure w1 w2 v :
  m_thermo w1 = m_thermo w2 →
  length (mv_rhoi w1) = m_ns w1 → length (mv_rhoi w2) = m_ns w2 →
  length (mv_surf_props_state w1) = m_ns_surf w1 →
  length (mv_surf_props_state w2) = m_ns_surf w2 →
  mv_rhoi w1 = mv_rhoi w2 →
  mv_surf_props_state w1 = mv_surf_props_state w2 →
  getNdStateGasSurf w1 v = getNdStateGasSurf w2 v.
Proof.
  intros Hth Hr1 Hr2 Hs1 Hs2 Hr Hs.
  assert (Hns : m_ns w1 = m_ns w2) by congruence.
  assert (Hnss : m_ns_surf w1 = m_ns_surf w2) by congruence.
  unfold getNdStateGasSurf. rewrite Hth, Hns, Hnss, Hr, Hs. reflexivity.
Qed.

End Claims.

Section Construction.
Context {R : Type} `{Double R}.
Implicit Types (w : WallState R) (v : list R).

(** [initializeSurfState] stores into the site densities only. *)
Lemma initializeSurfState_frame w :
  ∃ v', (initializeSurfState w).2 = set_mv_surf_props_state v' w.
Proof.
  unfold initializeSurfState.
  destruct (for_loop 0 _ _ _) as [r [v' pos]]. exists v'. reflexivity.
Qed.

(** C3, amended.  For a surface-properties provider whose categories all
    have a positive species count and whose species counts add up to at
    most [nWallSpecies], construction returns and the site densities hold,
    for every category [c] and every [j] below its species count [m c], the
    value [nTotalSites * fracSite c / m c] in slot [slot_of c + j], where
    [slot_of c] is the number of slots of the categories before [c]:
    categories in the provider's order, the species of a category in
    consecutive slots. *)
Theorem initializeSurfState_layout (mem : Uninitialized R)
    (thermo : Thermodynamics R) (surf_props : SurfaceProperties R) :
  (∀ c, (c < nSiteCategories surf_props)%nat → 0 < nSpeciesinSite surf_props c) →
  (slots_needed surf_props ≤ nWallSpecies surf_props)%nat →
  ∃ w, WallState_ctor mem thermo surf_props = (Ok (), w)
       ∧ (∀ c j, (c < nSiteCategories surf_props)%nat →
                 (Z.of_nat j < nSpeciesinSite surf_props c) →
                 mv_surf_props_state w !! (slot_of surf_props c + j)%nat
                 = Some (nTotalSites surf_props * fracSite surf_props c
                         / of_int (nSpeciesinSite surf_props c))%D)
       ∧ take (slots_needed surf_props) (mv_surf_props_state w)
         = site_layout surf_props.
Proof.
  intros Hpos Hfit. eexists. split; [apply WallState_ctor_fits, Hfit|].
  cbn. split.
  - intros c j Hc Hj.
    assert (Hj' : (j < site_slots surf_props c)%nat) by (unfold site_slots; lia).
    rewrite lookup_app_l.
    + apply site_layout_lookup; assumption.
    + rewrite length_site_layout. unfold slots_needed.
      replace (nSiteCategories surf_props)
        with (c + S (nSiteCategories surf_props - S c))%nat by lia.
      unfold slot_of. rewrite seq_app, map_app, sum_list_with_app. cbn. lia.
  - apply take_app_length'. symmetry. apply length_site_layout.
Qed.

(** C7, amended.  Construction captures [ns], [nT] and [nsSurf] from the
    two providers, gives the species densities [ns] entries and the
    temperatures [nT] entries, which are not initialised: they hold
    whatever the allocated memory held.  It clears the flag, and when the
    species counts of the site categories add up to at most [nsSurf] it
    returns with the site densities laid out by the site-initialisation
    algorithm. *)
Theorem WallState_ctor_spec (mem : Uninitialized R)
    (thermo : Thermodynamics R) (surf_props : SurfaceProperties R) :
  let r := WallState_ctor mem thermo surf_props in
  m_ns r.2 = nSpecies thermo
  ∧ m_nT r.2 = nEnergyEqns thermo
  ∧ m_ns_surf r.2 = nWallSpecies surf_props
  ∧ length (mv_rhoi r.2) = nSpecies thermo
  ∧ length (mv_T r.2) = nEnergyEqns thermo
  ∧ (∀ i, (i < nSpecies thermo)%nat → mv_rhoi r.2 !! i = Some (junk_rhoi mem i))
  ∧ (∀ i, (i < nEnergyEqns thermo)%nat → mv_T r.2 !! i = Some (junk_T mem i))
  ∧ m_is_wall_state_set r.2 = false
  ∧ ((slots_needed surf_props ≤ nWallSpecies surf_props)%nat →
     r.1 = Ok ()
     ∧ mv_surf_props_state r.2
       = site_layout surf_props
           ++ drop (slots_needed surf_props)
                (VectorXd_sized (junk_surf_props_state mem)
                   (nWallSpecies surf_props))).
Proof.
  intros r.
  assert (Hfits : (slots_needed surf_props ≤ nWallSpecies surf_props)%nat →
                  r.1 = Ok ()
                  ∧ mv_surf_props_state r.2
                    = site_layout surf_props
                        ++ drop (slots_needed surf_props)
                             (VectorXd_sized (junk_surf_props_state mem)
                                (nWallSpecies surf_props))).
  { intros Hfit. subst r. rewrite WallState_ctor_fits by assumption.
    split; reflexivity. }
  revert Hfits. subst r. unfold WallState_ctor.
  match goal with |- context [initializeSurfState ?w0] =>
    destruct (initializeSurfState_frame w0) as [v' Hv'];
    generalize dependent (initializeSurfState w0)
  end.
  intros [o w'] Hv'. cbn in Hv'. subst w'. cbn. intros Hfits.
  repeat split; try apply length_VectorXd_sized; try apply Hfits; try assumption.
  - intros i Hi. unfold VectorXd_sized.
    rewrite list_lookup_fmap, lookup_seq_lt by lia. reflexivity.
  - intros i Hi. unfold VectorXd_sized.
    rewrite list_lookup_fmap, lookup_seq_lt by lia. reflexivity.
Qed.

(** C8.  The flag is false in the object that construction returns; a
    call of [setWallState] that returns, which it does with id 0 or 1 only,
    leaves it true; and it is true after any further calls of the member
    functions, whether they return or throw. *)
Theorem is_wall_state_set_latched (mem : Uninitialized R)
    (thermo : Thermodynamics R) (surf_props : SurfaceProperties R)
    (w0 w1 w2 w3 : WallState R) (before later : list (call R))
    (p_mass p_energy : list R) (state_var : Z) :
  WallState_ctor mem thermo surf_props = (Ok (), w0) →
  after_calls w0 before = Some w1 →
  setWallState p_mass p_energy state_var w1 = (Ok (), w2) →
  after_calls w2 later = Some w3 →
  m_is_wall_state_set w0 = false
  ∧ (state_var = 0 ∨ state_var = 1)
  ∧ m_is_wall_state_set w2 = true
  ∧ m_is_wall_state_set w3 = true.
Proof.
  intros Hctor Hbefore Hset Hlater.
  assert (H2 : m_is_wall_state_set w2 = true).
  { pose proof (setWallState_outcome w1 p_mass p_energy state_var) as Ho.
    rewrite Hset in Ho. exact Ho. }
  repeat split.
  - unfold WallState_ctor in Hctor.
    match type of Hctor with initializeSurfState ?w = _ =>
      destruct (initializeSurfState_frame w) as [v' Hv'] end.
    rewrite Hctor in Hv'. cbn in Hv'. subst w0. reflexivity.
  - destruct (decide (state_var = 0)) as [|H0]; [left; assumption|].
    destruct (decide (state_var = 1)) as [|H1]; [right; assumption|].
    rewrite setWallState_other in Hset by assumption. discriminate.
  - exact H2.
  - eapply after_calls_keep_flag; eassumption.
Qed.

End Construction.

(** ** Conservation of the site density, in exact arithmetic *)

Lemma Qc_sum_app (l k : list Qc) : Qc_sum (l ++ k) = (Qc_sum l + Qc_sum k)%Qc.
Proof.
  induction l as [|x l IH].
  - change (Qc_sum k = (0 + Qc_sum k)%Qc). ring.
  - change (x + Qc_sum (l ++ k) = (x + Qc_sum l) + Qc_sum k)%Qc.
    rewrite IH. ring.
Qed.

Lemma Qc_of_nat_S (n : nat) :
  Q2Qc (inject_Z (Z.of_nat (S n))) = (1 + Q2Qc (inject_Z (Z.of_nat n)))%Qc.
Proof.
  unfold Qcplus. apply Q2Qc_eq_iff. cbn [this Q2Qc].
  rewrite !Qred_correct, Nat2Z.inj_succ, <- Z.add_1_l, inject_Z_plus.
  reflexivity.
Qed.

Lemma Qc_sum_replicate (n : nat) (d : Qc) :
  Qc_sum (replicate n d) = (Q2Qc (inject_Z (Z.of_nat n)) * d)%Qc.
Proof.
  induction n as [|n IH].
  - change (0 = 0 * d)%Qc. ring.
  - rewrite Qc_of_nat_S.
    change (d + Qc_sum (replicate n d)
            = (1 + Q2Qc (inject_Z (Z.of_nat n))) * d)%Qc.
    rewrite IH. ring.
Qed.

Lemma Qc_of_pos_nonzero (z : Z) : 0 < z → Q2Qc (inject_Z z) ≠ Q2Qc 0.
Proof.
  intros Hz Heq. apply Q2Qc_eq_iff in Heq.
  unfold Qeq, inject_Z in Heq. cbn in Heq. lia.
Qed.

(** The slots of one populated category add up to its share. *)
Lemma Qc_sum_site (sp : SurfaceProperties Qc) (c : nat) :
  0 < nSpeciesinSite sp c →
  Qc_sum (replicate (site_slots sp c) (site_density sp c))
  = (nTotalSites sp * fracSite sp c)%Qc.
Proof.
  intros Hm. rewrite Qc_sum_replicate. unfold site_slots, site_density.
  rewrite Z2Nat.id by lia. cbn [dmul ddiv of_int rational].
  field. apply Qc_of_pos_nonzero, Hm.
Qed.

Lemma Qc_sum_site_layout_from (sp : SurfaceProperties Qc) (n i : nat) :
  (∀ c, (i ≤ c < i + n)%nat → 0 < nSpeciesinSite sp c) →
  Qc_sum (site_layout_from sp i n)
  = (nTotalSites sp * Qc_sum (map (fracSite sp) (seq i n)))%Qc.
Proof.
  revert i. induction n as [|n IH]; intros i Hm.
  - change (0 = nTotalSites sp * 0)%Qc. ring.
  - rewrite site_layout_from_S, Qc_sum_app, Qc_sum_site by (apply Hm; lia).
    rewrite IH by (intros c Hc; apply Hm; lia).
    change (Qc_sum (map (fracSite sp) (seq i (S n))))
      with (fracSite sp i + Qc_sum (map (fracSite sp) (seq (S i) n)))%Qc.
    ring.
Qed.


(** ** The claims at concrete walls *)

Lemma float_seven_nonzero : 7%float ≠ 0%float.
Proof.
  intros Heq.
  assert (Hb : PrimFloat.eqb 7 0 = PrimFloat.eqb 0 0) by (rewrite Heq; reflexivity).
  vm_compute in Hb. discriminate.
Qed.

Lemma getNdStateGasSurf_spec_witness :
  length (mv_rhoi ex_wall_rhoi) = 2%nat
  ∧ length (mv_surf_props_state ex_wall_rhoi) = 3%nat
  ∧ ∃ v', getNdStateGasSurf ex_wall_rhoi [0; 0; 0; 0; 0]%float = (Ok (), v')
          ∧ length v' = 5%nat
          ∧ take 2 v' = [(2 * NA)%float; (8 * NA)%float]
          ∧ drop 2 v' = [3; 3; 6]%float.
Proof.
  split; [reflexivity|]. split; [reflexivity|].
  exact (getNdStateGasSurf_spec ex_wall_rhoi [0; 0; 0; 0; 0]%float
           eq_refl eq_refl eq_refl eq_refl).
Defined.

Lemma setWallState_getWallState_roundtrip_witness :
  ∃ w', setWallState [1; 2]%float [300]%float 1 ex_wall = (Ok (), w')
        ∧ getWallState w' 1 ([0; 0; 0]%float, [0]%float)
          = (Ok (), ([1; 2; 0]%float, [300]%float)).
Proof.
  apply (setWallState_getWallState_roundtrip ex_wall
           [1; 2]%float [300]%float [0; 0; 0]%float [0]%float);
    vm_compute; lia.
Defined.

Lemma setWallState_unsupported_witness :
  setWallState [1; 2]%float [300]%float 2 ex_wall_rhoi
  = (Throw (unsupported_set 2), ex_wall_rhoi)
  ∧ err_value (unsupported_set 2) = 2
  ∧ mentions (err_message (unsupported_set 2)) "0: (pressure, temperature)" = true
  ∧ mentions (err_message (unsupported_set 2))
      "1: (species densities, temperature)" = true.
Proof.
  apply (setWallState_unsupported ex_wall_rhoi [1; 2]%float [300]%float 2); lia.
Defined.

Lemma getWallState_unsupported_witness :
  getWallState ex_wall_rhoi 0 ([0; 0]%float, [0]%float)
  = (Throw (unsupported_get 0), ([0; 0]%float, [0]%float))
  ∧ err_value (unsupported_get 0) = 0
  ∧ mentions (err_message (unsupported_get 0))
      "1: (species densities, temperature)" = true.
Proof.
  apply (getWallState_unsupported ex_wall_rhoi [0; 0]%float [0]%float 0); lia.
Defined.

Lemma setWallState_effect_witness :
  (∃ w', setWallState [101325]%float [250]%float 0 ex_wall_rhoi = (Ok (), w')
         ∧ mv_T w' = [250]%float
         ∧ (0 = 0 → [101325]%float = [m_p w'] ∧ mv_rhoi w' = [1; 2]%float)
         ∧ (0 = 1 → mv_rhoi w' = [101325]%float ∧ m_p w' = 7%float))
  ∧ (∀ (p_mass' p_energy' : list float) (state_var' : Z),
       mv_surf_props_state (setWallState p_mass' p_energy' state_var' ex_wall_rhoi).2
       = [3; 3; 6]%float).
Proof.
  apply (setWallState_effect ex_wall_rhoi [101325]%float [250]%float 0);
    [left; reflexivity | reflexivity | reflexivity].
Defined.

Lemma getNdStateGasSurf_ignores_pressure_witness :
  m_p ex_wall_rhoi = 7%float
  ∧ m_p ex_wall_p = 101325%float
  ∧ getNdStateGasSurf ex_wall_rhoi [0; 0; 0; 0; 0]%float
    = getNdStateGasSurf ex_wall_p [0; 0; 0; 0; 0]%float.
Proof.
  split; [reflexivity|]. split; [reflexivity|].
  apply (getNdStateGasSurf_ignores_pressure ex_wall_rhoi ex_wall_p); reflexivity.
Defined.

Lemma initializeSurfState_layout_witness :
  ∃ w, WallState_ctor ex_mem ex_thermo ex_surf = (Ok (), w)
       ∧ (∀ c j, (c < 2)%nat → (Z.of_nat j < nSpeciesinSite ex_surf c) →
                 mv_surf_props_state w !! (slot_of ex_surf c + j)%nat
                 = Some (12%float * 0.5%float / of_int (nSpeciesinSite ex_surf c))%D)
       ∧ take 3 (mv_surf_props_state w) = [3; 3; 6]%float.
Proof.
  assert (Hpop : ∀ c, (c < nSiteCategories ex_surf)%nat → 0 < nSpeciesinSite ex_surf c)
    by (intros [|[|c]] Hc; cbn in *; lia).
  assert (Hfit : (slots_needed ex_surf ≤ nWallSpecies ex_surf)%nat)
    by (vm_compute; lia).
  exact (initializeSurfState_layout ex_mem ex_thermo ex_surf Hpop Hfit).
Defined.

Lemma is_wall_state_set_latched_witness :
  m_is_wall_state_set ex_wall = false
  ∧ (1 = 0 ∨ 1 = 1)
  ∧ m_is_wall_state_set ex_wall_rhoi = true
  ∧ m_is_wall_state_set ex_wall_p = true.
Proof.
  apply (is_wall_state_set_latched ex_mem ex_thermo ex_surf
           ex_wall ex_wall ex_wall_rhoi ex_wall_p
           [call_getWallState [0; 0]%float [0]%float 0;
            call_setWallState [1]%float [2]%float 5]
           [call_getNdStateGasSurf [0; 0; 0; 0; 0]%float;
            call_setWallState [101325]%float [250]%float 0;
            call_setWallState [] [] 3;
            call_getWallState [0; 0]%float [0]%float 1]
           [1; 2]%float [300]%float 1);
    vm_compute; reflexivity.
Defined.


(** C3 as stated fails: a provider whose only category has two species
    but which announces one wall species.  The category is populated, yet
    the second store of the inner loop is past the end of the vector, and
    slot 1 of category 0 does not exist. *)
Lemma initializeSurfState_overrun_counterexample :
  (∀ c, (c < nSiteCategories overrun_surf)%nat → 0 < nSpeciesinSite overrun_surf c)
  ∧ WallState_ctor ex_mem ex_thermo overrun_surf
    = (Fault OutOfBounds,
       set_mv_surf_props_state [4.5]%float
         (WallState_ctor ex_mem ex_thermo overrun_surf).2)
  ∧ mv_surf_props_state (WallState_ctor ex_mem ex_thermo overrun_surf).2
      !! (slot_of overrun_surf 0 + 1)%nat = None
  ∧ ¬ ∃ w, WallState_ctor ex_mem ex_thermo overrun_surf = (Ok (), w).
Proof.
  split; [intros c Hc; cbn; lia|].
  split; [vm_compute; reflexivity|].
  split; [vm_compute; reflexivity|].
  intros [w Hw]. vm_compute in Hw. discriminate.
Qed.

(** C7 as stated fails: construction on memory that held sevens returns
    a wall whose species densities and temperatures are sevens, not
    zeros. *)
Lemma WallState_ctor_not_zeroed_counterexample :
  WallState_ctor ex_mem ex_thermo ex_surf = (Ok (), ex_wall)
  ∧ mv_rhoi ex_wall = [7; 7]%float
  ∧ mv_T ex_wall = [7]%float
  ∧ ¬ (∀ x, x ∈ mv_rhoi ex_wall → x = 0%float)
  ∧ ¬ (∀ x, x ∈ mv_T ex_wall → x = 0%float).
Proof.
  split; [vm_compute; reflexivity|].
  split; [reflexivity|]. split; [reflexivity|].
  split; intros Hz; apply float_seven_nonzero, Hz; vm_compute; left.
Qed.

(** In binary64 the conservation of C4 is approximate: ten slots of one
    tenth add up to the double just below one. *)
Example site_density_binary64 :
  double_sum (mv_surf_props_state (WallState_ctor ex_mem ex_thermo tenth_surf).2)
  = 0x1.fffffffffffffp-1%float.
Proof. vm_compute. reflexivity. Qed.

Lemma WallState_ctor_spec_witness :
  m_ns ex_wall = 2%nat ∧ m_nT ex_wall = 1%nat ∧ m_ns_surf ex_wall = 3%nat
  ∧ mv_rhoi ex_wall = [7; 7]%float
  ∧ mv_T ex_wall = [7]%float
  ∧ m_is_wall_state_set ex_wall = false
  ∧ (WallState_ctor ex_mem ex_thermo ex_surf).1 = Ok ()
  ∧ mv_surf_props_state ex_wall = [3; 3; 6]%float.
Proof.
  destruct (WallState_ctor_spec ex_mem ex_thermo ex_surf)
    as (Hns & HnT & Hnsurf & _ & _ & _ & _ & Hflag & Hsurf).
  destruct Hsurf as [Hok Hstate]; [vm_compute; lia|].
  repeat split; try assumption; reflexivity.
Defined.

(** ** Further properties of the member functions *)

Section MoreProperties.
Context {R : Type} `{Double R}.
Implicit Types (w : WallState R) (v : list R).

Ltac step_setWallState state_var p_mass :=
  unfold setWallState, setWallRhoi, setWallP, setWallT, st_bind, st_modify,
    Eigen_Map, load, st_throw, st_fault, st_ret in *;
  destruct state_var as [|[?|?|]|?]; cbn in *;
  try (destruct p_mass as [|? ?]; cbn in * );
  repeat (destruct (decide _); cbn in * ).

(** The copying loop on a destination that is too short. *)
Lemma copy_loop_overrun (X : Type) (get : X → list R) (set : list R → X → X)
    (Hgs : ∀ b s, get (set b s) = b)
    (src : list R) (n i0 : nat) (s : X) :
  (i0 + n ≤ length src)%nat →
  (i0 ≤ length (get s) < i0 + n)%nat →
  (for_loop i0 n
     (λ i, x ←' load src i; st_zoom get set (store i x)) s).1
  = Fault OutOfBounds.
Proof.
  revert i0 s. induction n as [|n IH]; intros i0 s Hsrc Hdst; [lia|].
  destruct (lookup_lt_is_Some_2 src i0) as [x Hx]; [lia|].
  rewrite for_loop_S.
  unfold st_bind at 1, load, st_zoom, store. rewrite Hx. cbn.
  destruct (decide (i0 < length (get s))%nat) as [Hlt|Hge]; cbn; [|reflexivity].
  apply IH; rewrite ?Hgs, ?length_insert; lia.
Qed.

(** One call leaves the constructor's members and the site densities as
    they were. *)
Lemma after_call_frame w w' (c : call R) :
  after_call w c = Some w' →
  m_ns w' = m_ns w ∧ m_nT w' = m_nT w ∧ m_ns_surf w' = m_ns_surf w
  ∧ m_thermo w' = m_thermo w ∧ m_surf_props w' = m_surf_props w
  ∧ mv_surf_props_state w' = mv_surf_props_state w.
Proof.
  intros Hc. destruct c as [p_mass p_energy state_var| |]; unfold after_call in Hc.
  - pose proof (setWallState_frame w p_mass p_energy state_var) as Hf.
    destruct (setWallState p_mass p_energy state_var w) as [[[]|e|f] w''];
      simplify_eq; cbn in Hf; tauto.
  - destruct (getWallState _ _ _) as [[[]|e|f] b]; simplify_eq; tauto.
  - destruct (getNdStateGasSurf _ _) as [[[]|e|f] b]; simplify_eq; tauto.
Qed.

(** Categories without species take no slot. *)
Lemma site_layout_from_vacant (sp : SurfaceProperties R) (n i : nat) :
  (∀ c, (i ≤ c < i + n)%nat → nSpeciesinSite sp c ≤ 0) →
  site_layout_from sp i n = [].
Proof.
  revert i. induction n as [|n IH]; intros i Hm; [reflexivity|].
  rewrite site_layout_from_S, IH by (intros c Hc; apply Hm; lia).
  unfold site_slots. rewrite Z2Nat.nonpos by (apply Hm; lia). reflexivity.
Qed.

(** X1.  [getNdStateGasSurf] called with a vector whose length is not
    [ns + nsSurf] stops at its assertion, before anything is written: the
    vector is as it was. *)
Theorem getNdStateGasSurf_wrong_size w v :
  length v ≠ (m_ns w + m_ns_surf w)%nat →
  getNdStateGasSurf w v = (Fault AssertionFailure, v).
Proof.
  intros Hv. unfold getNdStateGasSurf, st_bind, st_get, assert.
  rewrite bool_decide_eq_false_2 by exact Hv. reflexivity.
Qed.

(** X2.  The outcomes of [setWallState]: it returns exactly when the id
    is 0, the mass array has a first value and the energy array has [nT]
    values, or the id is 1, the mass array has [ns] values and the energy
    array has [nT] values; it throws exactly when the id is neither 0 nor
    1; in every other case it reads past the end of an array. *)
Theorem setWallState_outcomes w (p_mass p_energy : list R) (state_var : Z) :
  let r := (setWallState p_mass p_energy state_var w).1 in
  (r = Ok () ↔
     (state_var = 0 ∧ (1 ≤ length p_mass)%nat ∧ (m_nT w ≤ length p_energy)%nat)
     ∨ (state_var = 1 ∧ (m_ns w ≤ length p_mass)%nat
        ∧ (m_nT w ≤ length p_energy)%nat))
  ∧ (r = Throw (unsupported_set state_var) ↔ state_var ≠ 0 ∧ state_var ≠ 1)
  ∧ (r = Ok () ∨ r = Throw (unsupported_set state_var) ∨ r = Fault OutOfBounds).
Proof.
  step_setWallState state_var p_mass;
    intuition (discriminate || lia || reflexivity || idtac).
Qed.

(** X3.  [setWallState] reads the first [nT] values of the energy array
    and, of the mass array, the first value with id 0 and the first [ns]
    values with id 1; whatever follows them has no effect on the outcome or
    on the object. *)
Theorem setWallState_reads_prefix w (p_mass p_energy : list R) (state_var : Z) :
  setWallState p_mass p_energy state_var w
  = setWallState
      (take (if decide (state_var = 0) then 1%nat else m_ns w) p_mass)
      (take (m_nT w) p_energy) state_var w.
Proof.
  unfold setWallState, setWallRhoi, setWallP, setWallT, st_bind, st_modify,
    Eigen_Map, load, st_ret, st_fault.
  destruct state_var as [|[p|p|]|p]; try reflexivity.
  - rewrite decide_True by reflexivity.
    destruct p_mass as [|p0 rest]; [reflexivity|]. cbn.
    destruct (decide (m_nT w ≤ length p_energy)%nat) as [Hle|Hgt].
    + rewrite decide_True by (rewrite length_take; lia).
      rewrite take_take, Nat.min_id. reflexivity.
    + rewrite decide_False by (rewrite length_take; lia). reflexivity.
  - rewrite (decide_False (P := 1 = 0)) by lia.
    destruct (decide (m_ns w ≤ length p_mass)%nat) as [Hle|Hgt].
    + rewrite (decide_True (P := (m_ns w ≤ length (take (m_ns w) p_mass))%nat))
        by (rewrite length_take; lia).
      rewrite take_take, Nat.min_id. cbn.
      destruct (decide (m_nT w ≤ length p_energy)%nat) as [Hle'|Hgt'].
      * rewrite decide_True by (rewrite length_take; lia).
        rewrite take_take, Nat.min_id. reflexivity.
      * rewrite decide_False by (rewrite length_take; lia). reflexivity.
    + rewrite (decide_False (P := (m_ns w ≤ length (take (m_ns w) p_mass))%nat))
        by (rewrite length_take; lia).
      reflexivity.
Qed.

(** X4.  A call of [setWallState] that returns overrides an earlier
    returning call with the same id: the object is as if the earlier call
    had not been made. *)
Theorem setWallState_overrides w w1 w2
    (p_mass p_energy p_mass' p_energy' : list R) (state_var : Z) :
  setWallState p_mass p_energy state_var w = (Ok (), w1) →
  setWallState p_mass' p_energy' state_var w1 = (Ok (), w2) →
  setWallState p_mass' p_energy' state_var w = (Ok (), w2).
Proof.
  intros H1 H2.
  pose proof (setWallState_frame w p_mass p_energy state_var) as Hf.
  rewrite H1 in Hf. cbn in Hf. destruct Hf as (_ & Hns & HnT & _).
  destruct (decide (state_var = 0)) as [->|H0];
    [|destruct (decide (state_var = 1)) as [->|Hn1]].
  - destruct p_mass as [|p rest]; [discriminate|].
    destruct p_mass' as [|p' rest']; [discriminate|].
    destruct (decide (m_nT w ≤ length p_energy)%nat) as [Hle|Hgt];
      [|unfold setWallState, setWallP, setWallT, st_bind, st_modify, Eigen_Map in H1;
        cbn in H1; rewrite decide_False in H1 by exact Hgt; discriminate].
    destruct (decide (m_nT w ≤ length p_energy')%nat) as [Hle'|Hgt'];
      [|unfold setWallState, setWallP, setWallT, st_bind, st_modify, Eigen_Map in H2;
        cbn in H2; rewrite decide_False in H2 by lia; discriminate].
    rewrite setWallState_0 in H1 by exact Hle.
    rewrite setWallState_0 in H2 by lia.
    rewrite setWallState_0 by exact Hle'.
    simplify_eq. reflexivity.
  - destruct (decide (m_ns w ≤ length p_mass ∧ m_nT w ≤ length p_energy)%nat)
      as [[Hs HT]|Hno];
      [|unfold setWallState, setWallRhoi, setWallT, st_bind, st_modify, Eigen_Map in H1;
        repeat (destruct (decide _) in H1; cbn in H1); try discriminate; lia].
    destruct (decide (m_ns w ≤ length p_mass' ∧ m_nT w ≤ length p_energy')%nat)
      as [[Hs' HT']|Hno'];
      [|unfold setWallState, setWallRhoi, setWallT, st_bind, st_modify, Eigen_Map in H2;
        repeat (destruct (decide _) in H2; cbn in H2); try discriminate;
        cbn in *; lia].
    rewrite setWallState_1 in H1 by assumption.
    rewrite setWallState_1 in H2 by lia.
    rewrite setWallState_1 by assumption.
    simplify_eq. reflexivity.
  - rewrite setWallState_other in H1 by assumption. discriminate.
Qed.

(** X5.  Setting the wall through variable-set 1 and then through
    variable-set 0 leaves the densities of the first call in place:
    [getWallState] afterwards writes the densities given to the first call
    and the temperatures given to the second. *)
Theorem getWallState_after_pressure_set w (p : R)
    (densities temperatures temperatures' p_rhoi p_rhoie : list R) :
  length densities = m_ns w →
  length temperatures = m_nT w →
  length temperatures' = m_nT w →
  (m_ns w ≤ length p_rhoi)%nat →
  (m_nT w ≤ length p_rhoie)%nat →
  ∃ w1 w2,
    setWallState densities temperatures 1 w = (Ok (), w1)
    ∧ setWallState [p] temperatures' 0 w1 = (Ok (), w2)
    ∧ m_p w2 = p
    ∧ getWallState w2 1 (p_rhoi, p_rhoie)
      = (Ok (), (densities ++ drop (m_ns w) p_rhoi,
                 temperatures' ++ drop (m_nT w) p_rhoie)).
Proof.
  intros Hd Ht Ht' Hb1 Hb2. eexists. eexists.
  split; [apply setWallState_1; lia|].
  split; [apply setWallState_0; cbn; lia|].
  split; [reflexivity|].
  rewrite getWallState_1 by (cbn; rewrite ?length_take; lia).
  cbn. rewrite !take_ge by lia. reflexivity.
Qed.

(** X6.  Whatever calls are made on a wall state, returning or throwing,
    the counts [ns], [nT] and [nsSurf], the two providers and the site
    densities stay as they were, and the vectors keep their recorded
    lengths if they had them. *)
Theorem after_calls_frame (cs : list (call R)) w w' :
  after_calls w cs = Some w' →
  m_ns w' = m_ns w ∧ m_nT w' = m_nT w ∧ m_ns_surf w' = m_ns_surf w
  ∧ m_thermo w' = m_thermo w ∧ m_surf_props w' = m_surf_props w
  ∧ mv_surf_props_state w' = mv_surf_props_state w
  ∧ (sized w → sized w').
Proof.
  revert w. induction cs as [|c cs IH]; intros w Hrun; cbn in Hrun.
  - simplify_eq. tauto.
  - destruct (after_call w c) as [w1|] eqn:Hc; [|discriminate].
    destruct (after_call_frame w w1 c Hc) as (E1 & E2 & E3 & E4 & E5 & E6).
    destruct (IH w1 Hrun) as (F1 & F2 & F3 & F4 & F5 & F6 & F7).
    do 6 (split; [congruence|]).
    intros Hw. apply F7. eapply after_call_sized; eauto.
Qed.

(** X7.  Construction returns exactly when the species counts of the
    site categories (the positive ones) add up to at most [nWallSpecies];
    otherwise [initializeSurfState] stores past the end of the site
    densities. *)
Theorem WallState_ctor_outcomes (mem : Uninitialized R)
    (thermo : Thermodynamics R) (surf_props : SurfaceProperties R) :
  let r := (WallState_ctor mem thermo surf_props).1 in
  (r = Ok () ↔ (slots_needed surf_props ≤ nWallSpecies surf_props)%nat)
  ∧ (r = Fault OutOfBounds
     ↔ (nWallSpecies surf_props < slots_needed surf_props)%nat).
Proof.
  cbn zeta.
  destruct (decide (slots_needed surf_props ≤ nWallSpecies surf_props)%nat)
    as [Hfit|Hover].
  - rewrite WallState_ctor_fits by exact Hfit. cbn.
    split; split; intros; try discriminate; try reflexivity; lia.
  - unfold WallState_ctor. rewrite initializeSurfState_overrun
      by (cbn; rewrite length_VectorXd_sized; lia).
    split; split; intros; try discriminate; try reflexivity; lia.
Qed.

(** X8.  The wall species beyond the slots of the site categories are
    never assigned: after construction they still hold what the memory
    held. *)
Theorem WallState_ctor_unassigned (mem : Uninitialized R)
    (thermo : Thermodynamics R) (surf_props : SurfaceProperties R) (i : nat) :
  (slots_needed surf_props ≤ i)%nat →
  (i < nWallSpecies surf_props)%nat →
  (WallState_ctor mem thermo surf_props).1 = Ok ()
  ∧ mv_surf_props_state (WallState_ctor mem thermo surf_props).2 !! i
    = Some (junk_surf_props_state mem i).
Proof.
  intros Hlo Hhi. rewrite WallState_ctor_fits by lia. cbn.
  split; [reflexivity|].
  rewrite lookup_app_r by (rewrite length_site_layout; exact Hlo).
  rewrite length_site_layout, lookup_drop. unfold VectorXd_sized.
  rewrite list_lookup_fmap, lookup_seq_lt by lia. cbn.
  do 2 f_equal. lia.
Qed.

(** X9.  A site model in which no category has a species (among them
    the model without categories) makes construction return with the site
    densities untouched: the quotient by the zero count is computed but
    never stored. *)
Theorem WallState_ctor_vacant (mem : Uninitialized R)
    (thermo : Thermodynamics R) (surf_props : SurfaceProperties R) :
  (∀ c, (c < nSiteCategories surf_props)%nat → nSpeciesinSite surf_props c ≤ 0) →
  (WallState_ctor mem thermo surf_props).1 = Ok ()
  ∧ mv_surf_props_state (WallState_ctor mem thermo surf_props).2
    = VectorXd_sized (junk_surf_props_state mem) (nWallSpecies surf_props).
Proof.
  intros Hm.
  assert (Hnil : site_layout surf_props = [])
    by (apply site_layout_from_vacant; intros c Hc; apply Hm; lia).
  assert (Hzero : slots_needed surf_props = 0%nat)
    by (rewrite <- length_site_layout, Hnil; reflexivity).
  rewrite WallState_ctor_fits by lia. cbn.
  rewrite Hnil, Hzero. split; reflexivity.
Qed.

(** X10.  [getWallState] does not look at the flag: on a wall that has
    just been constructed and never set it returns, and writes the
    uninitialised densities and temperatures. *)
Theorem getWallState_never_set (mem : Uninitialized R)
    (thermo : Thermodynamics R) (surf_props : SurfaceProperties R)
    (p_rhoi p_rhoie : list R) :
  (slots_needed surf_props ≤ nWallSpecies surf_props)%nat →
  (nSpecies thermo ≤ length p_rhoi)%nat →
  (nEnergyEqns thermo ≤ length p_rhoie)%nat →
  ∃ w, WallState_ctor mem thermo surf_props = (Ok (), w)
       ∧ m_is_wall_state_set w = false
       ∧ getWallState w 1 (p_rhoi, p_rhoie)
         = (Ok (), (VectorXd_sized (junk_rhoi mem) (nSpecies thermo)
                      ++ drop (nSpecies thermo) p_rhoi,
                    VectorXd_sized (junk_T mem) (nEnergyEqns thermo)
                      ++ drop (nEnergyEqns thermo) p_rhoie)).
Proof.
  intros Hfit Hb1 Hb2. eexists.
  split; [apply WallState_ctor_fits, Hfit|].
  split; [reflexivity|].
  rewrite getWallState_1; cbn; rewrite ?length_VectorXd_sized; try lia.
  reflexivity.
Qed.

(** X12.  The outcomes of [getWallState] on a wall state whose vectors
    have their recorded lengths: it returns exactly when the id is 1 and
    the two output arrays hold [ns] and [nT] values; it throws exactly when
    the id is not 1; with id 1 and an array that is too short it writes
    past the end of that array. *)
Theorem getWallState_outcomes w (p_rhoi p_rhoie : list R) (state_var : Z) :
  sized w →
  let r := (getWallState w state_var (p_rhoi, p_rhoie)).1 in
  (r = Ok () ↔ state_var = 1 ∧ (m_ns w ≤ length p_rhoi)%nat
               ∧ (m_nT w ≤ length p_rhoie)%nat)
  ∧ (r = Throw (unsupported_get state_var) ↔ state_var ≠ 1)
  ∧ (r = Fault OutOfBounds ↔ state_var = 1 ∧ ¬ ((m_ns w ≤ length p_rhoi)%nat
                                              ∧ (m_nT w ≤ length p_rhoie)%nat)).
Proof.
  intros (Hr & HT & _). cbn zeta.
  destruct (decide (state_var = 1)) as [->|Hid].
  - destruct (decide (m_ns w ≤ length p_rhoi)%nat) as [H1|H1].
    + destruct (decide (m_nT w ≤ length p_rhoie)%nat) as [H2|H2].
      * rewrite getWallState_1 by assumption. cbn.
        repeat split; intros; try discriminate; try reflexivity; tauto.
      * assert (Hf : (getWallState w 1 (p_rhoi, p_rhoie)).1 = Fault OutOfBounds).
        { unfold getWallState, getWallRhoi, getWallT. unfold st_bind at 1.
          rewrite (copy_loop _ fst (λ b s, (b, s.2)) (λ _ _, eq_refl)
                     (λ '(_, _), eq_refl) (λ _ _ _, eq_refl))
            by (cbn; lia).
          apply (copy_loop_overrun _ snd (λ b s, (s.1, b)) (λ _ _, eq_refl));
            cbn; lia. }
        rewrite Hf.
        repeat split; intros; try discriminate; try reflexivity; tauto.
    + assert (Hf : (getWallState w 1 (p_rhoi, p_rhoie)).1 = Fault OutOfBounds).
      { unfold getWallState, getWallRhoi, getWallT. unfold st_bind at 1.
        pose proof (copy_loop_overrun _ fst (λ b s, (b, s.2)) (λ _ _, eq_refl)
                      (mv_rhoi w) (m_ns w) 0 (p_rhoi, p_rhoie)) as Ho.
        destruct (for_loop 0 (m_ns w) _ (p_rhoi, p_rhoie)) as [[[]|e|f] s'];
          cbn in Ho |- *; try (apply Ho; lia).
        exfalso. assert (Ok () = Fault OutOfBounds) by (apply Ho; lia).
        discriminate. }
      rewrite Hf.
      repeat split; intros; try discriminate; try reflexivity; tauto.
  - rewrite getWallState_other by exact Hid. cbn.
    repeat split; intros; try discriminate; try reflexivity; tauto.
Qed.

End MoreProperties.

(** X11.  In exact rational arithmetic, whatever the fractions add up
    to: for a site model with no empty category whose species counts add up
    to at most [nsSurf], construction returns and the assigned site
    densities add up to the total site density times the sum of the
    fractions. *)
Theorem site_density_total (mem : Uninitialized Qc)
    (thermo : Thermodynamics Qc) (surf_props : SurfaceProperties Qc) :
  (∀ c, (c < nSiteCategories surf_props)%nat → 0 < nSpeciesinSite surf_props c) →
  (slots_needed surf_props ≤ nWallSpecies surf_props)%nat →
  (WallState_ctor mem thermo surf_props).1 = Ok ()
  ∧ Qc_sum (take (slots_needed surf_props)
              (mv_surf_props_state (WallState_ctor mem thermo surf_props).2))
    = (nTotalSites surf_props * frac_total surf_props)%Qc.
Proof.
  intros Hm Hfit. rewrite WallState_ctor_fits by exact Hfit. cbn.
  split; [reflexivity|].
  rewrite take_app_length' by (symmetry; apply length_site_layout).
  unfold site_layout.
  rewrite Qc_sum_site_layout_from by (intros c Hc; apply Hm; lia).
  reflexivity.
Qed.

(** ** The further properties at concrete walls *)

Lemma getNdStateGasSurf_wrong_size_witness :
  getNdStateGasSurf ex_wall_rhoi [0; 0; 0; 0]%float
  = (Fault AssertionFailure, [0; 0; 0; 0]%float).
Proof.
  apply (getNdStateGasSurf_wrong_size ex_wall_rhoi [0; 0; 0; 0]%float).
  vm_compute. lia.
Defined.

Lemma setWallState_overrides_witness :
  setWallState [5; 6]%float [400]%float 1 ex_wall
  = (Ok (), (setWallState [5; 6]%float [400]%float 1 ex_wall_rhoi).2).
Proof.
  apply (setWallState_overrides ex_wall ex_wall_rhoi _
           [1; 2]%float [300]%float [5; 6]%float [400]%float 1);
    vm_compute; reflexivity.
Defined.

Lemma getWallState_after_pressure_set_witness :
  ∃ w1 w2,
    setWallState [1; 2]%float [300]%float 1 ex_wall = (Ok (), w1)
    ∧ setWallState [101325]%float [250]%float 0 w1 = (Ok (), w2)
    ∧ m_p w2 = 101325%float
    ∧ getWallState w2 1 ([0; 0; 0]%float, [0]%float)
      = (Ok (), ([1; 2; 0]%float, [250]%float)).
Proof.
  apply (getWallState_after_pressure_set ex_wall 101325%float
           [1; 2]%float [300]%float [250]%float [0; 0; 0]%float [0]%float);
    vm_compute; lia.
Defined.

Lemma after_calls_frame_witness :
  m_ns ex_wall_p = 2%nat ∧ m_nT ex_wall_p = 1%nat ∧ m_ns_surf ex_wall_p = 3%nat
  ∧ m_thermo ex_wall_p = ex_thermo ∧ m_surf_props ex_wall_p = ex_surf
  ∧ mv_surf_props_state ex_wall_p = [3; 3; 6]%float
  ∧ (sized ex_wall → sized ex_wall_p).
Proof.
  apply (after_calls_frame
           [call_setWallState [1; 2]%float [300]%float 1;
            call_getWallState [0; 0]%float [0]%float 0;
            call_setWallState [101325]%float [250]%float 0;
            call_setWallState [] [] 3;
            call_getNdStateGasSurf [0; 0; 0; 0; 0]%float]
           ex_wall ex_wall_p).
  vm_compute. reflexivity.
Defined.

Lemma WallState_ctor_unassigned_witness :
  slots_needed sparse_surf = 2%nat
  ∧ (WallState_ctor ex_mem ex_thermo sparse_surf).1 = Ok ()
  ∧ mv_surf_props_state (WallState_ctor ex_mem ex_thermo sparse_surf).2 !! 2%nat
    = Some 7%float.
Proof.
  split; [reflexivity|].
  apply (WallState_ctor_unassigned ex_mem ex_thermo sparse_surf 2);
    vm_compute; lia.
Defined.

Lemma WallState_ctor_vacant_witness :
  (WallState_ctor ex_mem ex_thermo vacant_surf).1 = Ok ()
  ∧ mv_surf_props_state (WallState_ctor ex_mem ex_thermo vacant_surf).2
    = [7; 7]%float.
Proof.
  apply (WallState_ctor_vacant ex_mem ex_thermo vacant_surf).
  intros c Hc. cbn. lia.
Defined.

Lemma getWallState_never_set_witness :
  ∃ w, WallState_ctor ex_mem ex_thermo ex_surf = (Ok (), w)
       ∧ m_is_wall_state_set w = false
       ∧ getWallState w 1 ([0; 0; 0]%float, [0]%float)
         = (Ok (), ([7; 7; 0]%float, [7]%float)).
Proof.
  apply (getWallState_never_set ex_mem ex_thermo ex_surf [0; 0; 0]%float [0]%float);
    vm_compute; lia.
Defined.

Lemma getWallState_outcomes_witness :
  let r := (getWallState ex_wall_rhoi 1 ([0]%float, [0]%float)).1 in
  (r = Ok () ↔ 1 = 1 ∧ (2 ≤ 1)%nat ∧ (1 ≤ 1)%nat)
  ∧ (r = Throw (unsupported_get 1) ↔ 1 ≠ 1)
  ∧ (r = Fault OutOfBounds ↔ 1 = 1 ∧ ¬ ((2 ≤ 1)%nat ∧ (1 ≤ 1)%nat)).
Proof.
  apply (getWallState_outcomes ex_wall_rhoi [0]%float [0]%float 1).
  repeat split.
Defined.

Lemma site_density_total_witness :
  (WallState_ctor ex_mem_Q ex_thermo_Q partial_surf_Q).1 = Ok ()
  ∧ Qc_sum (take 3 (mv_surf_props_state
                      (WallState_ctor ex_mem_Q ex_thermo_Q partial_surf_Q).2))
    = (Q2Qc 12 * frac_total partial_surf_Q)%Qc.
Proof.
  apply (site_density_total ex_mem_Q ex_thermo_Q partial_surf_Q).
  - intros [|[|c]] Hc; cbn in *; lia.
  - vm_compute. lia.
Defined.

